(** * loafer/routes.py: the Route dispatch core and its CircuitBreaker

    A shallow embedding of [CircuitBreaker], [StubCircuitBreaker] and [Route]
    from [loafer/routes.py], followed by the properties of the routing
    specification stated over it.

    Conventions of the embedding.
    - Python values that travel as messages are terms of [value]; [truthy] is
      Python's truth test on them.
    - An instance attribute that is only created by a method ([_raw_message],
      [_breaker_message]) is an [option]: [None] means the attribute does not
      exist yet and reading it raises [AttributeError].
    - [time.time()] is an oracle: the clock holds the successive readings, one
      is consumed per call.  Readings are counted in clock ticks since the
      epoch, which lies in the past, so a reading is positive.
    - A method that mutates [self] returns the new [self]; a raised exception
      keeps the mutations done before it, as in Python.
    - Collaborators (provider, translator, handler) are functions of the
      history of calls made so far, which is general enough for any
      deterministic stateful collaborator. *)

From Stdlib Require Import ZArith Lia.
From stdpp Require Import base option list strings gmap.

#[local] Set Warnings "-register-all".
Local Open Scope Z_scope.

(** ** Python values *)

Inductive value : Type :=
  | VNone
  | VBool (b : bool)
  | VInt (n : Z)
  | VStr (s : string)
  | VList (items : list value)
  | VDict (items : list (string * value)).

(** [bool(v)]: [None], [False], [0] and empty containers are false. *)
Definition truthy (v : value) : bool :=
  match v with
  | VNone => false
  | VBool b => b
  | VInt n => negb (n =? 0)
  | VStr s => negb (String.eqb s "")
  | VList items => negb (Nat.eqb (length items) 0)
  | VDict items => negb (Nat.eqb (length items) 0)
  end.

(** ** Exceptions

    An [except] clause matches by class, subclasses included.  [mro] lists a
    class followed by its bases. *)

Inductive exc_class : Type :=
  | BaseException
  | Exception
  | CancelledError
  | DeleteMessage
  | AssertionError
  | AttributeError
  | KeyError
  | TypeError
  | ValueError
  | UserError (name : string) (base : exc_class).

#[global] Instance exc_class_eq_dec : EqDecision exc_class.
Proof. solve_decision. Defined.

(** Modelled from the spec: [DeleteMessage] is declared in
    [loafer/exceptions.py]; the specification calls it the control signal
    reserved for "delete this message".  It is taken as a direct subclass of
    [Exception].  [asyncio.CancelledError] derives from [BaseException]. *)
Fixpoint mro (c : exc_class) : list exc_class :=
  match c with
  | BaseException => [BaseException]
  | Exception => [Exception; BaseException]
  | CancelledError => [CancelledError; BaseException]
  | DeleteMessage => [DeleteMessage; Exception; BaseException]
  | AssertionError => [AssertionError; Exception; BaseException]
  | AttributeError => [AttributeError; Exception; BaseException]
  | KeyError => [KeyError; Exception; BaseException]
  | TypeError => [TypeError; Exception; BaseException]
  | ValueError => [ValueError; Exception; BaseException]
  | UserError _ base => c :: mro base
  end.

Definition issubclass (c k : exc_class) : bool := bool_decide (k ∈ mro c).

Record exn : Type := { exn_class : exc_class; exn_message : string }.

(** [except classes:] catches [e]. *)
Definition isinstance (e : exn) (classes : list exc_class) : bool :=
  existsb (issubclass (exn_class e)) classes.

Inductive result (A : Type) : Type :=
  | Return (a : A)
  | Raise (e : exn).
Arguments Return {A} a.
Arguments Raise {A} e.

(** ** The clock behind [time.time()] *)

Record Clock : Type := { readings : nat -> positive; ticks : nat }.

(** The reading the next call of [time.time()] returns. *)
Definition now (clk : Clock) : Z := Z.pos (readings clk (ticks clk)).

Definition tick (clk : Clock) : Clock :=
  {| readings := readings clk; ticks := S (ticks clk) |}.

Definition time_time (clk : Clock) : Z * Clock := (now clk, tick clk).

(** ** CircuitBreaker *)

Inductive health : Type := Closed | Open | HalfOpen.

Module CircuitBreaker.

Record t : Type := {
  exceptions : list exc_class;
  failure_threshold : Z;
  reset_timeout : Z;
  _failure_count : Z;
  _last_failure_time : option Z;
  _raw_message : option value;
  _breaker_message : option value
}.

(** [__init__]; the class attributes give [_failure_count = 0] and
    [_last_failure_time = None]. *)
Definition init (excs : list exc_class) (threshold timeout : Z) : t :=
  {| exceptions := excs;
     failure_threshold := threshold;
     reset_timeout := timeout;
     _failure_count := 0;
     _last_failure_time := None;
     _raw_message := None;
     _breaker_message := None |}.

Definition default_failure_threshold : Z := 5.
Definition default_reset_timeout : Z := 15.

Definition set_last_failure_time (self : t) (lft : option Z) : t :=
  {| exceptions := exceptions self;
     failure_threshold := failure_threshold self;
     reset_timeout := reset_timeout self;
     _failure_count := _failure_count self;
     _last_failure_time := lft;
     _raw_message := _raw_message self;
     _breaker_message := _breaker_message self |}.

(** The [state] property.  [self._last_failure_time and ...] is false for
    [None] and for a zero timestamp; the comparison and the refresh each
    read the clock. *)
Definition state (self : t) (clk : Clock) : health * t * Clock :=
  if _failure_count self <? failure_threshold self then (Closed, self, clk)
  else
    match _last_failure_time self with
    | Some last =>
        if negb (last =? 0) then
          let '(t1, clk1) := time_time clk in
          if reset_timeout self <? t1 - last then
            let '(t2, clk2) := time_time clk1 in
            (HalfOpen, set_last_failure_time self (Some t2), clk2)
          else (Open, self, clk1)
        else (Open, self, clk)
    | None => (Open, self, clk)
    end.

Definition open (message : value) (self : t) (clk : Clock) : t * Clock :=
  let '(t1, clk1) := time_time clk in
  ({| exceptions := exceptions self;
      failure_threshold := failure_threshold self;
      reset_timeout := reset_timeout self;
      _failure_count := _failure_count self + 1;
      _last_failure_time := Some t1;
      _raw_message := Some message;
      _breaker_message := _breaker_message self |}, clk1).

Definition close (self : t) : t :=
  {| exceptions := exceptions self;
     failure_threshold := failure_threshold self;
     reset_timeout := reset_timeout self;
     _failure_count := 0;
     _last_failure_time := None;
     _raw_message := _raw_message self;
     _breaker_message := Some VNone |}.

(** The calls a client can make on a breaker, and a run of them. *)
Inductive call : Type :=
  | CallOpen (message : value)
  | CallClose
  | CallState.

Definition step (c : call) (self : t) (clk : Clock) : t * Clock :=
  match c with
  | CallOpen message => open message self clk
  | CallClose => (close self, clk)
  | CallState => let '(_, self', clk') := state self clk in (self', clk')
  end.

Fixpoint run (calls : list call) (self : t) (clk : Clock) : t * Clock :=
  match calls with
  | [] => (self, clk)
  | c :: rest => let '(self', clk') := step c self clk in run rest self' clk'
  end.

(** A breaker as a program can hold it: built by [__init__], then used
    through its three operations. *)
Inductive reachable : t -> Prop :=
  | reachable_init excs threshold timeout :
      reachable (init excs threshold timeout)
  | reachable_step c self clk :
      reachable self -> reachable (step c self clk).1.

(** What the fields of a reachable breaker always satisfy. *)
Record consistent (self : t) : Prop := {
  count_nonneg : 0 <= _failure_count self;
  count_zero_iff : _failure_count self = 0 <-> _last_failure_time self = None;
  time_positive : forall last, _last_failure_time self = Some last -> 0 < last;
  failure_has_message :
    _last_failure_time self <> None -> _raw_message self <> None
}.

End CircuitBreaker.

Module StubCircuitBreaker.

Definition exceptions : list exc_class := [].
Definition state : health := Closed.

End StubCircuitBreaker.

(** ** Route *)

(** The two breaker classes a route can hold. *)
Inductive breaker : Type :=
  | RealBreaker (cb : CircuitBreaker.t)
  | StubBreaker.

(** The dictionary [apply_message_translator] builds. *)
Record message : Type := {
  content : value;
  metadata : gmap string value
}.

(** The dictionary a translator returns: either key may be missing. *)
Record translated : Type := {
  translated_content : option value;
  translated_metadata : option (gmap string value)
}.

(** The calls a route makes on its collaborators, most recent first in a
    trace. *)
Inductive event : Type :=
  | EvTranslate (raw : value)
  | EvHandle (in_executor : bool) (content : value) (metadata : gmap string value)
  | EvFetch
  | EvProviderStop
  | EvHandlerStop.

(** A callable taking [(content, metadata)]: what a call returns or raises,
    given the calls made before it.  Its truth value is Python's default for
    functions, methods and instances of classes without [__bool__] and
    [__len__]: true. *)
Record pycallable : Type := {
  iscoroutinefunction : bool;
  invoke : list event -> value -> gmap string value -> result value
}.

(** What an attribute or an argument can hold: plain data or a callable. *)
Inductive pyattr : Type :=
  | AttrData (v : value)
  | AttrCallable (f : pycallable).

Definition attr_truthy (a : pyattr) : bool :=
  match a with
  | AttrData v => truthy v
  | AttrCallable _ => true
  end.

Definition callable (a : pyattr) : bool :=
  match a with
  | AttrData _ => false
  | AttrCallable _ => true
  end.

(** The [handler] argument of [Route]: a callable, or an object that is not
    callable, with its [handle] attribute when it has one and whether it has a
    [stop] attribute. *)
Inductive handler_arg : Type :=
  | HandlerCallable (f : pycallable)
  | HandlerObject (handle : option pyattr) (has_stop : bool).

Record provider_arg : Type := {
  is_AbstractProvider : bool;
  provider_fetch_messages : list event -> result (list value)
}.

(** A translator argument that is true (Python's default for an instance).
    The code only ever tests a translator's truth ([if message_translator:],
    [if not self.message_translator:]), so an argument that is [None] or
    otherwise false is the [None] of [option translator_arg]. *)
Record translator_arg : Type := {
  is_AbstractMessageTranslator : bool;
  translate : list event -> value -> result translated
}.

Module Route.

Record t : Type := {
  name : string;
  enabled : bool;
  circuit_breaker : breaker;
  provider : provider_arg;
  message_translator : option translator_arg;
  _error_handler : option pyattr;
  handler : pyattr;
  _handler_instance : option handler_arg
}.

Definition assertion_error (msg : string) : exn :=
  {| exn_class := AssertionError; exn_message := msg |}.

(** [getattr(handler, 'handle', None)] *)
Definition getattr_handle (h : handler_arg) : pyattr :=
  match h with
  | HandlerCallable f => AttrCallable f
  | HandlerObject (Some a) _ => a
  | HandlerObject None _ => AttrData VNone
  end.

(** [Route.__init__]: the assertions in the order of the source.
    [message_translator_] is [Some] for an argument that is true and [None]
    for one that is [None] or false, so [if message_translator:] is the test
    for [Some]; [error_handler_] is [None] for the default [None], and the
    truth of a given one is [attr_truthy]. *)
Definition init (provider_ : provider_arg) (handler_ : handler_arg)
    (name_ : string) (message_translator_ : option translator_arg)
    (error_handler_ : option pyattr) (enabled_ : bool)
    (circuit_breaker_ : option CircuitBreaker.t) : result t :=
  let breaker_ :=
    match circuit_breaker_ with
    | Some cb => RealBreaker cb
    | None => StubBreaker
    end in
  if negb (is_AbstractProvider provider_) then
    Raise (assertion_error "invalid provider instance")
  else if match message_translator_ with
          | Some tr => negb (is_AbstractMessageTranslator tr)
          | None => false
          end then
    Raise (assertion_error "invalid message translator instance")
  else if match error_handler_ with
          | Some eh => attr_truthy eh && negb (callable eh)
          | None => false
          end then
    Raise (assertion_error "error_handler must be a callable object")
  else
    let '(handler', instance') :=
      match handler_ with
      | HandlerCallable f => (AttrCallable f, None)
      | HandlerObject _ _ => (getattr_handle handler_, Some handler_)
      end in
    if negb (attr_truthy handler') then
      Raise (assertion_error
               "handler must be a callable object or implement `handle` method")
    else
      Return {| name := name_;
                enabled := enabled_;
                circuit_breaker := breaker_;
                provider := provider_;
                message_translator := message_translator_;
                _error_handler := error_handler_;
                handler := handler';
                _handler_instance := instance' |}.

(** The names an attribute reference on a route resolves: those [__init__]
    assigns and those the class defines. *)
Definition instance_attributes : list string :=
  ["name"; "enabled"; "circuit_breaker"; "provider"; "message_translator";
   "_error_handler"; "handler"; "_handler_instance"].

Definition class_attributes : list string :=
  ["__init__"; "__str__"; "apply_message_translator"; "deliver";
   "run_handler"; "error_handler"; "fetch_messages"; "stop"].

Definition hasattr (attribute : string) : bool :=
  bool_decide (attribute ∈ instance_attributes ++ class_attributes).

Definition attribute_error (owner attribute : string) : exn :=
  {| exn_class := AttributeError;
     exn_message := "'" +:+ owner +:+ "' object has no attribute '"
                      +:+ attribute +:+ "'" |}.

(** The state a method runs in: the route, the clock, the calls so far. *)
Record World : Type := {
  self : t;
  clock : Clock;
  trace : list event
}.

Definition set_circuit_breaker (b : breaker) (r : t) : t :=
  {| name := name r;
     enabled := enabled r;
     circuit_breaker := b;
     provider := provider r;
     message_translator := message_translator r;
     _error_handler := _error_handler r;
     handler := handler r;
     _handler_instance := _handler_instance r |}.

Definition set_enabled (b : bool) (r : t) : t :=
  {| name := name r;
     enabled := b;
     circuit_breaker := circuit_breaker r;
     provider := provider r;
     message_translator := message_translator r;
     _error_handler := _error_handler r;
     handler := handler r;
     _handler_instance := _handler_instance r |}.

Definition record (ev : event) (w : World) : World :=
  {| self := self w; clock := clock w; trace := ev :: trace w |}.

(** [self.circuit_breaker.exceptions] *)
Definition breaker_exceptions (b : breaker) : list exc_class :=
  match b with
  | RealBreaker cb => CircuitBreaker.exceptions cb
  | StubBreaker => StubCircuitBreaker.exceptions
  end.

(** [self.circuit_breaker.state] *)
Definition breaker_state (w : World) : health * World :=
  match circuit_breaker (self w) with
  | RealBreaker cb =>
      let '(st, cb', clk') := CircuitBreaker.state cb (clock w) in
      (st, {| self := set_circuit_breaker (RealBreaker cb') (self w);
              clock := clk';
              trace := trace w |})
  | StubBreaker => (StubCircuitBreaker.state, w)
  end.

(** [self.circuit_breaker.open(raw_message)] *)
Definition breaker_open (raw_message : value) (w : World) : World :=
  match circuit_breaker (self w) with
  | RealBreaker cb =>
      let '(cb', clk') := CircuitBreaker.open raw_message cb (clock w) in
      {| self := set_circuit_breaker (RealBreaker cb') (self w);
         clock := clk';
         trace := trace w |}
  | StubBreaker => w
  end.

(** [self.circuit_breaker.close()] *)
Definition breaker_close (w : World) : World :=
  match circuit_breaker (self w) with
  | RealBreaker cb =>
      {| self := set_circuit_breaker (RealBreaker (CircuitBreaker.close cb)) (self w);
         clock := clock w;
         trace := trace w |}
  | StubBreaker => w
  end.

(** The [ValueError] of a failed translation; its text names the translator
    and the message in the source. *)
Definition translation_error : exn :=
  {| exn_class := ValueError; exn_message := "failed to translate message" |}.

Definition key_error (key : string) : exn :=
  {| exn_class := KeyError; exn_message := key |}.

Definition apply_message_translator (raw : value) (w : World)
    : result message * World :=
  match message_translator (self w) with
  | None => (Return {| content := raw; metadata := ∅ |}, w)
  | Some tr =>
      let w1 := record (EvTranslate raw) w in
      match translate tr (trace w) raw with
      | Raise e => (Raise e, w1)
      | Return translated_ =>
          (* processed_message['metadata'].update(translated.get('metadata', {})) *)
          let metadata_ := default ∅ (translated_metadata translated_) ∪ ∅ in
          match translated_content translated_ with
          | None => (Raise (key_error "content"), w1)
          | Some content_ =>
              if negb (truthy content_) then (Raise translation_error, w1)
              else (Return {| content := content_; metadata := metadata_ |}, w1)
          end
      end
  end.

Definition not_callable_error : exn :=
  {| exn_class := TypeError; exn_message := "object is not callable" |}.

(** [run_handler]: a coroutine function is awaited, anything else goes to
    the executor; either way the handler runs once with
    [(content, metadata)] and what it raises comes back unmodified. *)
Definition run_handler (raw_message : value) (w : World)
    : result value * World :=
  match apply_message_translator raw_message w with
  | (Raise e, w1) => (Raise e, w1)
  | (Return msg, w1) =>
      match handler (self w1) with
      | AttrCallable f =>
          (invoke f (trace w1) (content msg) (metadata msg),
           record (EvHandle (negb (iscoroutinefunction f))
                            (content msg) (metadata msg)) w1)
      | AttrData _ => (Raise not_callable_error, w1)
      end
  end.

(** [deliver].  The recursion of the retry is bounded here by [fuel];
    [None] means the fuel ran out. *)
Fixpoint deliver (fuel : nat) (raw_message : value) (w : World)
    : option (result value * World) :=
  match fuel with
  | O => None
  | S fuel' =>
      if negb (enabled (self w)) then Some (Return (VBool false), w)
      else
        match run_handler raw_message w with
        | (Raise e, w1) =>
            if isinstance e [DeleteMessage; CancelledError] then
              Some (Raise e, w1)
            else if isinstance e (breaker_exceptions (circuit_breaker (self w1))) then
              (* logger.debug(... .format(self.circuit._failure_count)) *)
              if negb (hasattr "circuit") then
                Some (Raise (attribute_error "Route" "circuit"), w1)
              else
                let w2 := breaker_open raw_message w1 in
                let '(st, w3) := breaker_state w2 in
                match st with
                | Closed => deliver fuel' raw_message w3
                | _ => Some (Raise e, w3)
                end
            else Some (Raise e, w1)
        | (Return result_, w1) => Some (Return result_, breaker_close w1)
        end
  end.

(** [self.circuit_breaker._raw_message] *)
Definition breaker_raw_message (b : breaker) : result value :=
  match b with
  | RealBreaker cb =>
      match CircuitBreaker._raw_message cb with
      | Some m => Return m
      | None => Raise (attribute_error "CircuitBreaker" "_raw_message")
      end
  | StubBreaker => Raise (attribute_error "StubCircuitBreaker" "_raw_message")
  end.

(** [fetch_messages].  [if self.circuit_breaker:] always holds: neither
    breaker class defines [__bool__] or [__len__]. *)
Definition fetch_messages (w : World) : result (list value) * World :=
  let '(st, w1) := breaker_state w in
  match st with
  | Open => (Return [], w1)
  | HalfOpen =>
      match breaker_raw_message (circuit_breaker (self w1)) with
      | Return m => (Return [m], w1)
      | Raise e => (Raise e, w1)
      end
  | Closed =>
      (provider_fetch_messages (provider (self w1)) (trace w1),
       record EvFetch w1)
  end.

(** [stop].  [provider.stop()] and the handler object's [stop()] are calls
    on collaborators; they are recorded and taken to return. *)
Definition stop (w : World) : World :=
  let w1 := {| self := set_enabled false (self w);
               clock := clock w; trace := trace w |} in
  let w2 := record EvProviderStop w1 in
  match _handler_instance (self w2) with
  | Some (HandlerObject _ true) => record EvHandlerStop w2
  | _ => w2
  end.

Definition is_handle (ev : event) : bool :=
  match ev with
  | EvHandle _ _ _ => true
  | _ => false
  end.

(** How many times a trace shows the handler invoked. *)
Definition handler_calls (tr : list event) : nat :=
  length (List.filter is_handle tr).

End Route.

(** * Predicates and scenarios used by the statements below *)

(** The data-model invariant of the specification: a stored message (the one
    a half-open fetch hands out, [_raw_message]) exactly when failures are
    counted. *)
Definition stored_message_invariant (cb : CircuitBreaker.t) : Prop :=
  is_Some (CircuitBreaker._raw_message cb) <-> 0 < CircuitBreaker._failure_count cb.

(** A route holds the stub breaker or a breaker built and used through its
    operations. *)
Definition breaker_reachable (b : breaker) : Prop :=
  match b with
  | RealBreaker cb => CircuitBreaker.reachable cb
  | StubBreaker => True
  end.

(** A handler argument that resolves to an invocable entry point: a callable,
    or an object with a callable [handle]. *)
Definition resolves_to_entry_point (h : handler_arg) : bool :=
  match h with
  | HandlerCallable _ => true
  | HandlerObject (Some a) _ => callable a
  | HandlerObject None _ => false
  end.

(** A clock reading 1, 101, 201, ... *)
Definition example_clock : Clock :=
  {| readings := fun n => Pos.of_nat (1 + 100 * n); ticks := 0 |}.

Definition M1 : value := VStr "M1".

Definition HandlerError : exc_class := UserError "HandlerError" Exception.

Definition handler_error : exn :=
  {| exn_class := HandlerError; exn_message := "handler failed" |}.

Definition example_provider : provider_arg :=
  {| is_AbstractProvider := true;
     provider_fetch_messages := fun _ => Return [VStr "M2"; VStr "M3"] |}.

(** A handler that always raises [HandlerError]. *)
Definition failing_handler : pycallable :=
  {| iscoroutinefunction := false;
     invoke := fun _ _ _ => Raise handler_error |}.

(** A handler that returns its content. *)
Definition echo_handler : pycallable :=
  {| iscoroutinefunction := true;
     invoke := fun _ content_ _ => Return content_ |}.

(** A handler that raises a [ValueError] of its own. *)
Definition value_error_handler : pycallable :=
  {| iscoroutinefunction := false;
     invoke := fun _ _ _ =>
       Raise {| exn_class := ValueError; exn_message := "bad payload" |} |}.

(** A handler that raises the delete-message signal. *)
Definition deleting_handler : pycallable :=
  {| iscoroutinefunction := true;
     invoke := fun _ _ _ =>
       Raise {| exn_class := DeleteMessage; exn_message := "" |} |}.

(** A translator that returns an empty string as content. *)
Definition empty_translator : translator_arg :=
  {| is_AbstractMessageTranslator := true;
     translate := fun _ _ =>
       Return {| translated_content := Some (VStr "");
                 translated_metadata := None |} |}.

Definition make_route (h : pyattr) (tr : option translator_arg) (b : breaker)
    : Route.t :=
  {| Route.name := "default";
     Route.enabled := true;
     Route.circuit_breaker := b;
     Route.provider := example_provider;
     Route.message_translator := tr;
     Route.handler := h;
     Route._error_handler := None;
     Route._handler_instance := None |}.

Definition start (r : Route.t) : Route.World :=
  {| Route.self := r; Route.clock := example_clock; Route.trace := [] |}.

(** The scenario of the specification: threshold 2, timeout 1, the breaker
    matches [HandlerError], the handler keeps raising it. *)
Definition scenario_breaker : CircuitBreaker.t :=
  CircuitBreaker.init [HandlerError] 2 1.

Definition scenario_route : Route.t :=
  make_route (AttrCallable failing_handler) None (RealBreaker scenario_breaker).

(** A breaker configured with threshold 0. *)
Definition zero_threshold_route : Route.t :=
  make_route (AttrCallable echo_handler) None
             (RealBreaker (CircuitBreaker.init [HandlerError] 0 15)).

(** A breaker with threshold 1 that recorded M1 at the clock's first reading,
    and a route holding it one reading later. *)
Definition tripped_breaker : CircuitBreaker.t :=
  (CircuitBreaker.open M1 (CircuitBreaker.init [HandlerError] 1 15) example_clock).1.

Definition tripped_world : Route.World :=
  {| Route.self := make_route (AttrCallable failing_handler) None
                              (RealBreaker tripped_breaker);
     Route.clock := tick example_clock;
     Route.trace := [] |}.

(** A breaker with threshold 5 after three recorded failures, on a route
    whose handler now succeeds. *)
Definition failed_breaker : CircuitBreaker.t :=
  (CircuitBreaker.run
     [CircuitBreaker.CallOpen M1; CircuitBreaker.CallOpen M1; CircuitBreaker.CallOpen M1]
     (CircuitBreaker.init [HandlerError] 5 15) example_clock).1.

Definition recovering_route : Route.t :=
  make_route (AttrCallable echo_handler) None (RealBreaker failed_breaker).

(** An object whose [handle] attribute is the number 5. *)
Definition number_handle : handler_arg :=
  HandlerObject (Some (AttrData (VInt 5))) false.

(** ** A route as its scheduler drives it *)

(** The calls a scheduler makes on a route.  [deliver] gets at least one unit
    of fuel; were it to run out, the route would be left as it was. *)
Inductive route_call : Type :=
  | CallDeliver (fuel : nat) (raw_message : value)
  | CallFetch
  | CallStop.

Definition route_step (c : route_call) (w : Route.World) : Route.World :=
  match c with
  | CallDeliver fuel raw_message =>
      match Route.deliver (S fuel) raw_message w with
      | Some (_, w') => w'
      | None => w
      end
  | CallFetch => (Route.fetch_messages w).2
  | CallStop => Route.stop w
  end.

Fixpoint route_run (calls : list route_call) (w : Route.World) : Route.World :=
  match calls with
  | [] => w
  | c :: rest => route_run rest (route_step c w)
  end.

Definition is_provider_stop (ev : event) : bool :=
  match ev with
  | EvProviderStop => true
  | _ => false
  end.

(** How many times a trace shows the provider asked to stop. *)
Definition provider_stops (tr : list event) : nat :=
  length (List.filter is_provider_stop tr).

(** The handler argument is an object with a [stop] attribute. *)
Definition has_stop_hook (h : handler_arg) : bool :=
  match h with
  | HandlerCallable _ => false
  | HandlerObject _ has_stop => has_stop
  end.

(** A clock reading 1, then 101, 102, 103, ... *)
Definition probe_clock : Clock :=
  {| readings := fun n => match n with
                          | O => 1%positive
                          | S k => Pos.of_nat (101 + k)
                          end;
     ticks := 0 |}.

(** The breaker of [tripped_breaker] on the slower clock, one reading after
    its failure. *)
Definition probe_world : Route.World :=
  {| Route.self :=
       make_route (AttrCallable echo_handler) None
         (RealBreaker
            (CircuitBreaker.open M1 (CircuitBreaker.init [HandlerError] 1 15)
                                 probe_clock).1);
     Route.clock := tick probe_clock;
     Route.trace := [] |}.

(** A translator that wraps the message in a list and adds a metadata entry. *)
Definition tagging_translator : translator_arg :=
  {| is_AbstractMessageTranslator := true;
     translate := fun _ raw =>
       Return {| translated_content := Some (VList [raw]);
                 translated_metadata := Some {[ "source" := VStr "queue" ]} |} |}.

(** An object with a [handle] method and a [stop] method. *)
Definition stoppable_handler : handler_arg :=
  HandlerObject (Some (AttrCallable echo_handler)) true.

(** * Properties of CircuitBreaker *)

Section CircuitBreakerFacts.

Import CircuitBreaker.

Lemma now_positive clk : 0 < now clk.
Proof. unfold now. lia. Qed.

Lemma consistent_init excs threshold timeout :
  consistent (init excs threshold timeout).
Proof. split; simpl; try done; lia. Qed.

Lemma consistent_open message self clk :
  consistent self -> consistent (open message self clk).1.
Proof.
  intros [Hnn Hz Hpos Hmsg]. split; simpl.
  - lia.
  - split; [lia | done].
  - intros last [= <-]. apply now_positive.
  - done.
Qed.

Lemma consistent_close self : consistent (close self).
Proof. split; simpl; try done; lia. Qed.

(** [state] changes nothing but, on a half-open reading, the timestamp. *)
Lemma state_cases self clk :
  state self clk = (Closed, self, clk)
  \/ state self clk = (Open, self, clk)
  \/ state self clk = (Open, self, tick clk)
  \/ (_last_failure_time self <> None
      /\ state self clk
         = (HalfOpen, set_last_failure_time self (Some (now (tick clk))),
            tick (tick clk))).
Proof.
  unfold state, time_time.
  destruct (_failure_count self <? failure_threshold self); [by left |].
  destruct (_last_failure_time self) as [last |]; [| by right; left].
  destruct (negb (last =? 0)); [| by right; left].
  destruct (reset_timeout self <? now clk - last).
  - right; right; right. done.
  - right; right; left. done.
Qed.

Lemma consistent_state self clk :
  consistent self -> consistent (state self clk).1.2.
Proof.
  intros Hc.
  destruct (state_cases self clk) as [-> | [-> | [-> | [Hlast ->]]]];
    try done.
  destruct Hc as [Hnn Hz Hpos Hmsg]. split; simpl.
  - done.
  - split; [intros H0; by apply Hz in H0 | done].
  - intros last [= <-]. apply now_positive.
  - intros _. by apply Hmsg.
Qed.

Lemma consistent_step c self clk :
  consistent self -> consistent (step c self clk).1.
Proof.
  intros Hc. destruct c as [message | |]; simpl.
  - by apply consistent_open.
  - apply consistent_close.
  - pose proof (consistent_state self clk Hc) as Hs.
    destruct (state self clk) as [[st self'] clk']. done.
Qed.

Lemma reachable_consistent self : reachable self -> consistent self.
Proof.
  induction 1 as [excs threshold timeout | c self clk _ IH].
  - apply consistent_init.
  - by apply consistent_step.
Qed.

Lemma reachable_run calls self clk :
  reachable self -> reachable (run calls self clk).1.
Proof.
  revert self clk. induction calls as [| c rest IH]; intros self clk Hr.
  - done.
  - simpl. pose proof (reachable_step c self clk Hr) as Hs.
    destruct (step c self clk) as [self' clk']. by apply IH.
Qed.

(** The configuration never changes. *)
Lemma step_config c self clk :
  failure_threshold (step c self clk).1 = failure_threshold self
  /\ reset_timeout (step c self clk).1 = reset_timeout self
  /\ exceptions (step c self clk).1 = exceptions self.
Proof.
  destruct c as [message | |]; simpl; try done.
  destruct (state_cases self clk) as [-> | [-> | [-> | [_ ->]]]]; done.
Qed.

(** A run of [open] calls adds their number to the failure count. *)
Lemma run_opens_count messages self clk :
  _failure_count (run (map CallOpen messages) self clk).1
  = _failure_count self + Z.of_nat (length messages).
Proof.
  revert self clk. induction messages as [| m rest IH]; intros self clk.
  - simpl. lia.
  - cbn [map run step]. unfold open, time_time. rewrite IH. simpl. lia.
Qed.

Lemma run_opens_config messages self clk :
  failure_threshold (run (map CallOpen messages) self clk).1
  = failure_threshold self
  /\ reset_timeout (run (map CallOpen messages) self clk).1
     = reset_timeout self.
Proof.
  revert self clk. induction messages as [| m rest IH]; intros self clk.
  - done.
  - cbn [map run step]. unfold open, time_time.
    destruct (IH
      {| exceptions := exceptions self;
         failure_threshold := failure_threshold self;
         reset_timeout := reset_timeout self;
         _failure_count := _failure_count self + 1;
         _last_failure_time := Some (now clk);
         _raw_message := Some m;
         _breaker_message := _breaker_message self |} (tick clk))
      as [-> ->]. done.
Qed.

(** At or past the threshold the reading is [Open] unless the timeout has
    run out since a recorded failure. *)
Lemma state_open_within self clk :
  failure_threshold self <= _failure_count self ->
  (forall last, _last_failure_time self = Some last ->
                now clk - last <= reset_timeout self) ->
  (state self clk).1.1 = Open.
Proof.
  intros Hge Hwithin. unfold state, time_time.
  destruct (Z.ltb_spec (_failure_count self) (failure_threshold self)); [lia |].
  destruct (_last_failure_time self) as [last |]; [| done].
  destruct (negb (last =? 0)); [| done].
  specialize (Hwithin last eq_refl).
  destruct (Z.ltb_spec (reset_timeout self) (now clk - last)); [lia | done].
Qed.

End CircuitBreakerFacts.

Section CircuitBreakerClaims.

Import CircuitBreaker.

(** [close] zeroes the count, clears the failure time, and a second [close]
    changes nothing. *)
Lemma close_resets self :
  _failure_count (close self) = 0
  /\ _last_failure_time (close self) = None
  /\ close (close self) = close self.
Proof. done. Qed.

(** [close] assigns [_breaker_message]; the field [open] wrote, and the one
    a half-open fetch reads, is [_raw_message]. *)
Lemma close_keeps_raw_message self :
  _raw_message (close self) = _raw_message self.
Proof. done. Qed.

(** One half of the invariant holds on every reachable breaker: counted
    failures come with a stored message. *)
Lemma counted_failure_has_message self :
  reachable self -> 0 < _failure_count self -> is_Some (_raw_message self).
Proof.
  intros Hr Hpos. destruct (reachable_consistent self Hr) as [_ Hz _ Hmsg].
  destruct (_raw_message self) as [m |] eqn:Hraw; [by eexists |].
  exfalso. apply Hmsg; [| done].
  intros Hnone. apply Hz in Hnone. lia.
Qed.

(** C2: after [open(M1)] and then [close()], the failure count is 0 and the
    message a half-open fetch would return is still stored, so the invariant
    "stored message present iff failure count > 0" does not hold. *)
Theorem stored_message_invariant_broken_by_close :
  let cb := (run [CallOpen M1; CallClose] (init [HandlerError] 5 15) example_clock).1 in
  _failure_count cb = 0
  /\ _raw_message cb = Some M1
  /\ ~ stored_message_invariant cb.
Proof.
  simpl. split; [done | split; [done |]].
  unfold stored_message_invariant. simpl. intros [Hpos _].
  specialize (Hpos (mk_is_Some _ _ eq_refl)). lia.
Qed.

(** C3: [close()] on a breaker holding M1 after three failures resets the
    count and the failure time and is idempotent, but the stored message
    [_raw_message] is not cleared: [close] writes [None] into
    [_breaker_message] instead. *)
Theorem close_leaves_stored_message :
  let cb := (run [CallOpen M1; CallOpen M1; CallOpen M1]
                 (init [HandlerError] 5 15) example_clock).1 in
  _failure_count cb = 3
  /\ _failure_count (close cb) = 0
  /\ _last_failure_time (close cb) = None
  /\ close (close cb) = close cb
  /\ _raw_message (close cb) = Some M1
  /\ _breaker_message (close cb) = Some VNone.
Proof. simpl. repeat split. Qed.

(** C4: reading [state] on a breaker with threshold T gives closed when the
    failure count is below T; at or above T it gives open while the time
    since the last failure is at most the reset timeout, and half-open once
    it exceeds the timeout; the half-open reading sets the last failure time
    to the reading the clock gives at the refresh and leaves the count, the
    stored message and the configuration alone, while the other readings
    leave the breaker as it was; after exactly T consecutive [open] calls
    on a breaker with no counted failure, with no timeout elapsed, the
    reading is open. *)
Theorem state_reading self clk :
  reachable self ->
  (_failure_count self < failure_threshold self ->
     state self clk = (Closed, self, clk))
  /\ (forall last,
        failure_threshold self <= _failure_count self ->
        _last_failure_time self = Some last ->
        (now clk - last <= reset_timeout self ->
           state self clk = (Open, self, tick clk)
           /\ _last_failure_time (state self clk).1.2 = Some last)
        /\ (reset_timeout self < now clk - last ->
              (state self clk).1.1 = HalfOpen
              /\ _last_failure_time (state self clk).1.2 = Some (now (tick clk))
              /\ (state self clk).2 = tick (tick clk)
              /\ _failure_count (state self clk).1.2 = _failure_count self
              /\ _raw_message (state self clk).1.2 = _raw_message self
              /\ exceptions (state self clk).1.2 = exceptions self
              /\ failure_threshold (state self clk).1.2 = failure_threshold self
              /\ reset_timeout (state self clk).1.2 = reset_timeout self
              /\ state self clk
                 = (HalfOpen,
                    set_last_failure_time self (Some (now (tick clk))),
                    tick (tick clk))))
  /\ (forall messages,
        _failure_count self = 0 ->
        length messages = Z.to_nat (failure_threshold self) ->
        let after := run (map CallOpen messages) self clk in
        (forall last, _last_failure_time after.1 = Some last ->
                      now after.2 - last <= reset_timeout self) ->
        (state after.1 after.2).1.1 = Open).
Proof.
  intros Hr. split; [| split].
  - intros Hlt. unfold state.
    destruct (Z.ltb_spec (_failure_count self) (failure_threshold self)); [done | lia].
  - intros last Hge Hlast.
    destruct (reachable_consistent self Hr) as [_ _ Hpos _].
    specialize (Hpos last Hlast).
    unfold state, time_time. rewrite Hlast.
    destruct (Z.ltb_spec (_failure_count self) (failure_threshold self)); [lia |].
    destruct (Z.eqb_spec last 0); [lia |]. cbn [negb].
    split; intros Hcmp;
      destruct (Z.ltb_spec (reset_timeout self) (now clk - last));
      try lia; cbn [fst snd]; repeat split; done.
  - intros messages Hzero Hlen after Hwithin.
    destruct (run_opens_config messages self clk) as [HT Hto].
    apply state_open_within.
    + subst after. rewrite HT, run_opens_count, Hzero, Hlen. lia.
    + subst after. rewrite Hto. done.
Qed.

Lemma state_reading_witness :
  let cb := (open M1 (init [HandlerError] 1 15) example_clock).1 in
  _last_failure_time cb = Some 1
  /\ (state cb (tick example_clock)).1.1 = HalfOpen
  /\ _last_failure_time (state cb (tick example_clock)).1.2 = Some 201
  /\ (state cb (tick example_clock)).2 = tick (tick (tick example_clock))
  /\ _failure_count (state cb (tick example_clock)).1.2 = 1
  /\ _raw_message (state cb (tick example_clock)).1.2 = Some M1.
Proof.
  intros cb. split; [reflexivity |].
  destruct (proj2 (proj1 (proj2
              (state_reading (step (CallOpen M1) (init [HandlerError] 1 15)
                                   example_clock).1
                             (tick example_clock)
                             (reachable_step _ _ _ (reachable_init _ _ _))))
              1 ltac:(vm_compute; discriminate) eq_refl)
              ltac:(vm_compute; reflexivity))
    as (Hh & Ht & Hc & Hn & Hm & _).
  exact (conj Hh (conj Ht (conj Hc (conj Hn Hm)))).
Defined.

End CircuitBreakerClaims.

(** * Properties of Route *)

Section RouteFacts.

Import Route.

(** No attribute of a route is called [circuit]. *)
Lemma hasattr_circuit : hasattr "circuit" = false.
Proof. vm_compute. reflexivity. Qed.

(** Translation touches neither the route nor the clock, and never invokes
    the handler. *)
Lemma apply_message_translator_frame raw w :
  let w1 := (apply_message_translator raw w).2 in
  self w1 = self w /\ clock w1 = clock w
  /\ (trace w1 = trace w \/ trace w1 = EvTranslate raw :: trace w).
Proof.
  unfold apply_message_translator.
  destruct (message_translator (self w)) as [tr |]; [| by auto].
  destruct (translate tr (trace w) raw) as [t | e]; [| by simpl; auto].
  destruct (translated_content t) as [c |]; [| by simpl; auto].
  destruct (negb (truthy c)); simpl; auto.
Qed.

Lemma apply_message_translator_calls raw w :
  handler_calls (trace (apply_message_translator raw w).2)
  = handler_calls (trace w).
Proof.
  destruct (apply_message_translator_frame raw w) as (_ & _ & [-> | ->]); done.
Qed.

(** One run of the handler: the route and the clock are as before, and the
    handler was invoked at most once. *)
Lemma run_handler_frame raw w :
  let w1 := (run_handler raw w).2 in
  self w1 = self w /\ clock w1 = clock w
  /\ (handler_calls (trace w1) <= S (handler_calls (trace w)))%nat.
Proof.
  unfold run_handler.
  pose proof (apply_message_translator_frame raw w) as (Hs & Hc & _).
  pose proof (apply_message_translator_calls raw w) as Hn.
  destruct (apply_message_translator raw w) as [[msg | e] w1]; simpl in *.
  - destruct (handler (self w1)) as [v | f]; simpl.
    + rewrite Hn. auto with lia.
    + unfold handler_calls in *. simpl. rewrite Hn. auto with lia.
  - rewrite Hn. auto with lia.
Qed.

Lemma deliver_disabled fuel raw w :
  enabled (self w) = false ->
  deliver (S fuel) raw w = Some (Return (VBool false), w).
Proof. intros He. simpl. by rewrite He. Qed.

(** The body of the [except self.circuit_breaker.exceptions] clause stops at
    its first statement: [self.circuit] does not exist. *)
Lemma deliver_matched fuel raw w e w1 :
  enabled (self w) = true ->
  run_handler raw w = (Raise e, w1) ->
  isinstance e [DeleteMessage; CancelledError] = false ->
  isinstance e (breaker_exceptions (circuit_breaker (self w))) = true ->
  deliver (S fuel) raw w = Some (Raise (attribute_error "Route" "circuit"), w1).
Proof.
  intros He Hrun Hctl Hm.
  pose proof (run_handler_frame raw w) as (Hs & _ & _).
  rewrite Hrun in Hs. simpl in Hs.
  cbn [deliver]. rewrite He, Hrun. cbn [negb].
  rewrite Hctl, Hs, Hm, hasattr_circuit. done.
Qed.

(** Reading the breaker's state leaves everything but the breaker's
    timestamp and the clock as it was. *)
Lemma breaker_state_frame w :
  let w1 := (breaker_state w).2 in
  trace w1 = trace w
  /\ provider (self w1) = provider (self w)
  /\ match circuit_breaker (self w), circuit_breaker (self w1) with
     | RealBreaker cb, RealBreaker cb1 =>
         CircuitBreaker._raw_message cb1 = CircuitBreaker._raw_message cb
         /\ cb1 = (CircuitBreaker.state cb (clock w)).1.2
     | StubBreaker, StubBreaker => w1 = w
     | _, _ => False
     end.
Proof.
  unfold breaker_state.
  destruct (circuit_breaker (self w)) as [cb |] eqn:Hb.
  - destruct (state_cases cb (clock w)) as [-> | [-> | [-> | [_ ->]]]];
      simpl; done.
  - simpl. by rewrite Hb.
Qed.

(** A half-open reading comes with a stored message on every breaker a
    route can hold. *)
Lemma half_open_has_message cb clk :
  CircuitBreaker.reachable cb ->
  (CircuitBreaker.state cb clk).1.1 = HalfOpen ->
  is_Some (CircuitBreaker._raw_message cb).
Proof.
  intros Hr Hst.
  destruct (reachable_consistent cb Hr) as [_ _ _ Hmsg].
  destruct (state_cases cb clk) as [H | [H | [H | [Hlast H]]]];
    rewrite H in Hst; try discriminate.
  destruct (CircuitBreaker._raw_message cb) as [m |] eqn:Hraw; [by eexists |].
  by destruct (Hmsg Hlast).
Qed.

End RouteFacts.

Section RouteFactsWitnesses.

Import Route.

Lemma deliver_disabled_witness :
  let w := start (set_enabled false scenario_route) in
  deliver 1 M1 w = Some (Return (VBool false), w).
Proof.
  exact (deliver_disabled 0 M1 (start (set_enabled false scenario_route)) eq_refl).
Defined.

Lemma deliver_matched_witness :
  let r := make_route (AttrCallable value_error_handler) None
             (RealBreaker (CircuitBreaker.init [Exception] 5 15)) in
  deliver 3 M1 (start r)
  = Some (Raise (attribute_error "Route" "circuit"),
          record (EvHandle true M1 ∅) (start r)).
Proof.
  intros r.
  apply (deliver_matched 2 M1 (start r)
           {| exn_class := ValueError; exn_message := "bad payload" |});
    by vm_compute.
Defined.

Lemma counted_failure_has_message_witness :
  is_Some (CircuitBreaker._raw_message tripped_breaker).
Proof.
  apply counted_failure_has_message.
  - exact (CircuitBreaker.reachable_step (CircuitBreaker.CallOpen M1) _ _
             (CircuitBreaker.reachable_init _ _ _)).
  - vm_compute. reflexivity.
Defined.

End RouteFactsWitnesses.

Section RouteClaims.

Import Route.

(** C1: in the scenario of the specification (threshold 2, the breaker
    matches HandlerError, the handler raises it) [deliver] does not call
    [circuit_breaker.open], does not retry and does not re-raise the
    handler's error: whatever the fuel, it raises AttributeError after one
    handler invocation and the breaker still counts 0 failures. *)
Theorem deliver_matched_failure_never_opens fuel :
  init example_provider (HandlerCallable failing_handler) "default" None None
       true (Some scenario_breaker)
  = Return scenario_route
  /\ run_handler M1 (start scenario_route)
     = (Raise handler_error, record (EvHandle true M1 ∅) (start scenario_route))
  /\ isinstance handler_error (CircuitBreaker.exceptions scenario_breaker) = true
  /\ deliver (S fuel) M1 (start scenario_route)
     = Some (Raise (attribute_error "Route" "circuit"),
             record (EvHandle true M1 ∅) (start scenario_route))
  /\ circuit_breaker (self (record (EvHandle true M1 ∅) (start scenario_route)))
     = RealBreaker scenario_breaker
  /\ CircuitBreaker._failure_count scenario_breaker = 0.
Proof.
  split; [reflexivity |]. split; [reflexivity |]. split; [by vm_compute |].
  split; [| split; reflexivity].
  cbn [deliver]. by vm_compute.
Qed.

(** C5: [fetch_messages] returns the empty list when the breaker reads
    open, the one-element list of the stored failing message when it reads
    half-open, in both cases without a call to the provider, and the
    provider's result, from one call, when it reads closed. *)
Theorem fetch_messages_by_health w :
  breaker_reachable (circuit_breaker (self w)) ->
  let st := (breaker_state w).1 in
  let w1 := (breaker_state w).2 in
  match st with
  | Open => fetch_messages w = (Return [], w1) /\ trace w1 = trace w
  | HalfOpen =>
      exists cb m,
        circuit_breaker (self w) = RealBreaker cb
        /\ CircuitBreaker._raw_message cb = Some m
        /\ fetch_messages w = (Return [m], w1)
        /\ trace w1 = trace w
  | Closed =>
      fetch_messages w
      = (provider_fetch_messages (provider (self w)) (trace w),
         record EvFetch w1)
      /\ trace w1 = trace w
  end.
Proof.
  intros Hr st w1. subst st w1.
  pose proof (breaker_state_frame w) as (Htr & Hprov & Hb).
  unfold fetch_messages.
  destruct (breaker_state w) as [st w1] eqn:Hst. simpl in *.
  destruct st.
  - by rewrite Htr, Hprov.
  - done.
  - unfold breaker_state in Hst.
    destruct (circuit_breaker (self w)) as [cb |] eqn:Hcb.
    + destruct (circuit_breaker (self w1)) as [cb1 |] eqn:Hcb1; [| done].
      destruct Hb as [Hraw _].
      destruct (half_open_has_message cb (clock w) Hr) as [m Hm].
      { destruct (CircuitBreaker.state cb (clock w)) as [[st' cb'] clk'].
        by injection Hst as -> _. }
      exists cb, m. unfold breaker_raw_message. rewrite Hraw, Hm. done.
    + by injection Hst as Hst _.
Qed.

Lemma fetch_messages_by_health_witness :
  exists cb m,
    circuit_breaker (self tripped_world) = RealBreaker cb
    /\ CircuitBreaker._raw_message cb = Some m
    /\ fetch_messages tripped_world
       = (Return [m], (breaker_state tripped_world).2)
    /\ trace (breaker_state tripped_world).2 = trace tripped_world.
Proof.
  exact (fetch_messages_by_health tripped_world
           (CircuitBreaker.reachable_step (CircuitBreaker.CallOpen M1) _ _
              (CircuitBreaker.reachable_init _ _ _))).
Defined.

(** C7: when the handler invocation raises the delete-message signal, a
    cancellation, or an error the breaker does not match, [deliver] raises
    that same error after that single invocation and the breaker is as it
    was, also when a control signal's class is among the matched ones. *)
Theorem deliver_propagates_unrecorded fuel raw w e w1 :
  enabled (self w) = true ->
  run_handler raw w = (Raise e, w1) ->
  isinstance e [DeleteMessage; CancelledError] = true
  \/ isinstance e (breaker_exceptions (circuit_breaker (self w))) = false ->
  deliver (S fuel) raw w = Some (Raise e, w1)
  /\ circuit_breaker (self w1) = circuit_breaker (self w)
  /\ clock w1 = clock w
  /\ (handler_calls (trace w1) <= S (handler_calls (trace w)))%nat.
Proof.
  intros He Hrun Hkind.
  pose proof (run_handler_frame raw w) as (Hs & Hc & Hn).
  rewrite Hrun in Hs, Hc, Hn. simpl in Hs, Hc, Hn.
  split; [| by rewrite Hs].
  cbn [deliver]. rewrite He, Hrun. cbn [negb].
  destruct Hkind as [-> | Hun]; [done |].
  rewrite Hs, Hun. by destruct (isinstance e [DeleteMessage; CancelledError]).
Qed.

Lemma deliver_propagates_unrecorded_witness :
  let r := make_route (AttrCallable deleting_handler) None
             (RealBreaker (CircuitBreaker.init [DeleteMessage; Exception] 2 1)) in
  let w1 := record (EvHandle false M1 ∅) (start r) in
  deliver 1 M1 (start r)
  = Some (Raise {| exn_class := DeleteMessage; exn_message := "" |}, w1)
  /\ circuit_breaker (self w1) = circuit_breaker (self (start r))
  /\ clock w1 = clock (start r)
  /\ (handler_calls (trace w1) <= S (handler_calls (trace (start r))))%nat.
Proof.
  apply (deliver_propagates_unrecorded 0 M1).
  - reflexivity.
  - reflexivity.
  - left. by vm_compute.
Defined.

(** C6, as the code has it: when the handler invocation of an enabled route
    returns, [deliver] calls [circuit_breaker.close()] and returns the
    handler's result; the breaker then counts 0 failures, and reads closed
    when its threshold is at least 1 (the stub breaker always reads
    closed). *)
Theorem deliver_success_closes fuel raw w r w1 :
  enabled (self w) = true ->
  run_handler raw w = (Return r, w1) ->
  deliver (S fuel) raw w = Some (Return r, breaker_close w1)
  /\ match circuit_breaker (self w) with
     | RealBreaker cb =>
         circuit_breaker (self (breaker_close w1))
         = RealBreaker (CircuitBreaker.close cb)
         /\ CircuitBreaker._failure_count (CircuitBreaker.close cb) = 0
         /\ (1 <= CircuitBreaker.failure_threshold cb ->
             forall clk,
               CircuitBreaker.state (CircuitBreaker.close cb) clk
               = (Closed, CircuitBreaker.close cb, clk))
     | StubBreaker =>
         circuit_breaker (self (breaker_close w1)) = StubBreaker
         /\ (breaker_state (breaker_close w1)).1 = Closed
     end.
Proof.
  intros He Hrun.
  pose proof (run_handler_frame raw w) as (Hs & _ & _).
  rewrite Hrun in Hs. simpl in Hs.
  split.
  - cbn [deliver]. by rewrite He, Hrun.
  - unfold breaker_close, breaker_state. rewrite Hs.
    destruct (circuit_breaker (self w)) as [cb |] eqn:Hcb.
    + split; [done | split; [done |]].
      intros HT clk. unfold CircuitBreaker.state. simpl.
      destruct (Z.ltb_spec 0 (CircuitBreaker.failure_threshold cb)); [done | lia].
    + by rewrite Hs, Hcb.
Qed.

Lemma deliver_success_closes_witness :
  let w1 := record (EvHandle false M1 ∅) (start recovering_route) in
  CircuitBreaker._failure_count failed_breaker = 3
  /\ deliver 1 M1 (start recovering_route) = Some (Return M1, breaker_close w1)
  /\ circuit_breaker (self (breaker_close w1))
     = RealBreaker (CircuitBreaker.close failed_breaker)
  /\ CircuitBreaker._failure_count (CircuitBreaker.close failed_breaker) = 0
  /\ CircuitBreaker.state (CircuitBreaker.close failed_breaker) example_clock
     = (Closed, CircuitBreaker.close failed_breaker, example_clock).
Proof.
  intros w1. split; [reflexivity |].
  destruct (deliver_success_closes 0 M1 (start recovering_route) M1 w1
              eq_refl eq_refl) as (Hd & Hb & Hc & Hst).
  refine (conj Hd (conj Hb (conj Hc (Hst _ example_clock)))).
  vm_compute. discriminate.
Defined.

(** C6 as stated fails on a breaker configured with threshold 0: the
    delivery succeeds, the count is 0, and the breaker reads open. *)
Lemma deliver_success_threshold_zero_reads_open :
  let w' := breaker_close (record (EvHandle false M1 ∅) (start zero_threshold_route)) in
  deliver 1 M1 (start zero_threshold_route) = Some (Return M1, w')
  /\ circuit_breaker (self w')
     = RealBreaker (CircuitBreaker.close (CircuitBreaker.init [HandlerError] 0 15))
  /\ (breaker_state w').1 = Open.
Proof. repeat split. Qed.

(** C8, as the code has it: with a translator bound, a translation whose
    content is false (None, empty, zero) makes [apply_message_translator]
    raise ValueError, and one with no content entry makes it raise KeyError;
    [run_handler] raises the same error and the handler is not invoked. *)
Theorem empty_translation_raises raw w tr t :
  message_translator (self w) = Some tr ->
  translate tr (trace w) raw = Return t ->
  match translated_content t with
  | Some c => truthy c = false
  | None => True
  end ->
  let e := match translated_content t with
           | Some _ => translation_error
           | None => key_error "content"
           end in
  apply_message_translator raw w = (Raise e, record (EvTranslate raw) w)
  /\ run_handler raw w = (Raise e, record (EvTranslate raw) w)
  /\ handler_calls (trace (record (EvTranslate raw) w)) = handler_calls (trace w)
  /\ exn_class translation_error = ValueError.
Proof.
  intros Htr Ht Hempty e.
  assert (apply_message_translator raw w = (Raise e, record (EvTranslate raw) w))
    as Happly.
  { unfold apply_message_translator. rewrite Htr, Ht. subst e.
    destruct (translated_content t) as [c |]; [| done]. by rewrite Hempty. }
  split; [done |]. split; [| done].
  unfold run_handler. by rewrite Happly.
Qed.

Lemma empty_translation_raises_witness :
  let w := start (make_route (AttrCallable echo_handler) (Some empty_translator)
                             StubBreaker) in
  apply_message_translator M1 w = (Raise translation_error, record (EvTranslate M1) w)
  /\ run_handler M1 w = (Raise translation_error, record (EvTranslate M1) w)
  /\ handler_calls (trace (record (EvTranslate M1) w)) = handler_calls (trace w)
  /\ exn_class translation_error = ValueError.
Proof.
  intros w.
  exact (empty_translation_raises M1 w empty_translator
           {| translated_content := Some (VStr ""); translated_metadata := None |}
           eq_refl eq_refl eq_refl).
Defined.

(** C8 as stated fails in its last part: the error of a failed translation
    has the class of an error a handler raises, and a breaker that matches
    that class catches the translation failure as it catches the handler's. *)
Lemma translation_error_kind_not_distinct :
  let wt := start (make_route (AttrCallable echo_handler) (Some empty_translator)
                              StubBreaker) in
  let wh := start (make_route (AttrCallable value_error_handler) None StubBreaker) in
  let eh := {| exn_class := ValueError; exn_message := "bad payload" |} in
  run_handler M1 wt = (Raise translation_error, record (EvTranslate M1) wt)
  /\ handler_calls (trace (record (EvTranslate M1) wt)) = 0%nat
  /\ run_handler M1 wh = (Raise eh, record (EvHandle true M1 ∅) wh)
  /\ handler_calls (trace (record (EvHandle true M1 ∅) wh)) = 1%nat
  /\ exn_class translation_error = exn_class eh
  /\ isinstance translation_error [ValueError] = true
  /\ isinstance eh [ValueError] = true.
Proof. repeat split. Qed.

(** When [__init__] succeeds: the provider is an [AbstractProvider], a
    translator that is true is an [AbstractMessageTranslator], an error
    handler that is true is callable, and the resolved handler entry point is
    true; whether [handle] is callable is not looked at. *)
Lemma init_succeeds_iff provider_ handler_ name_ translator_ error_handler_
    enabled_ breaker_ :
  (exists r, init provider_ handler_ name_ translator_ error_handler_
                  enabled_ breaker_ = Return r)
  <-> is_AbstractProvider provider_ = true
      /\ match translator_ with
         | Some tr => is_AbstractMessageTranslator tr = true
         | None => True
         end
      /\ match error_handler_ with
         | Some eh => attr_truthy eh = true -> callable eh = true
         | None => True
         end
      /\ attr_truthy (getattr_handle handler_) = true.
Proof.
  unfold init.
  destruct (is_AbstractProvider provider_); simpl;
    [| split; [intros [r [=]] | intros [[=] _]]].
  destruct translator_ as [tr |];
    [destruct (is_AbstractMessageTranslator tr); simpl;
       [| split; [intros [r [=]] | intros (_ & [=] & _)]] |].
  all: destruct error_handler_ as [[v | f] |]; simpl;
    try (destruct (truthy v); simpl;
         [split; [intros [r [=]] | intros (_ & _ & Hc & _); by specialize (Hc eq_refl)] |]).
  all: destruct handler_ as [g | [[v' | g] |] stop_]; simpl;
    try (destruct (truthy v'); simpl);
    try (split; [by intros _ | by intros _; eexists]);
    split; (by intros [r [=]]) || (by intros (_ & _ & _ & [=])).
Qed.

(** C9: an object whose [handle] attribute is the number 5 does not resolve
    to an invocable entry point, yet [Route] is constructed; its handler is
    not callable and running it raises TypeError. *)
Theorem init_accepts_non_callable_handle :
  let r := {| name := "default";
              enabled := true;
              circuit_breaker := StubBreaker;
              provider := example_provider;
              message_translator := None;
              _error_handler := None;
              handler := AttrData (VInt 5);
              _handler_instance := Some number_handle |} in
  resolves_to_entry_point number_handle = false
  /\ init example_provider number_handle "default" None None true None = Return r
  /\ callable (handler r) = false
  /\ run_handler M1 (start r) = (Raise not_callable_error, start r).
Proof. repeat split. Qed.

(** C10: with no translator bound, [apply_message_translator] returns the
    raw message wrapped with empty metadata, whatever the message, and
    [run_handler] invokes the handler with exactly that content and
    metadata. *)
Theorem no_translator_wraps raw w :
  message_translator (self w) = None ->
  apply_message_translator raw w
  = (Return {| content := raw; metadata := ∅ |}, w)
  /\ run_handler raw w
     = match handler (self w) with
       | AttrCallable f =>
           (invoke f (trace w) raw ∅,
            record (EvHandle (negb (iscoroutinefunction f)) raw ∅) w)
       | AttrData _ => (Raise not_callable_error, w)
       end.
Proof.
  intros Hnone.
  assert (apply_message_translator raw w
          = (Return {| content := raw; metadata := ∅ |}, w)) as Happly.
  { unfold apply_message_translator. by rewrite Hnone. }
  split; [done |].
  unfold run_handler. rewrite Happly. by destruct (handler (self w)).
Qed.

Lemma no_translator_wraps_witness :
  let w := start (make_route (AttrCallable echo_handler) None StubBreaker) in
  truthy VNone = false
  /\ apply_message_translator VNone w
     = (Return {| content := VNone; metadata := ∅ |}, w)
  /\ run_handler VNone w = (Return VNone, record (EvHandle false VNone ∅) w).
Proof.
  intros w. split; [reflexivity |].
  exact (no_translator_wraps VNone w eq_refl).
Defined.

End RouteClaims.


(** * Further properties of CircuitBreaker *)

Section CircuitBreakerBehaviour.

Import CircuitBreaker.

(** A half-open reading comes from a breaker at or past its threshold and
    has exactly this result. *)
Lemma state_half_open_inv self clk :
  (state self clk).1.1 = HalfOpen ->
  (_failure_count self <? failure_threshold self) = false
  /\ state self clk
     = (HalfOpen, set_last_failure_time self (Some (now (tick clk))),
        tick (tick clk)).
Proof.
  unfold state, time_time.
  destruct (_failure_count self <? failure_threshold self); [done |].
  destruct (_last_failure_time self) as [last |]; [| done].
  destruct (negb (last =? 0)); [| done].
  by destruct (reset_timeout self <? now clk - last).
Qed.

(** With a clock reading as timestamp, a breaker past its threshold reads
    open until the timeout has run out. *)
Lemma state_open_after_refresh self clk0 clk :
  (_failure_count self <? failure_threshold self) = false ->
  now clk - now clk0 <= reset_timeout self ->
  state (set_last_failure_time self (Some (now clk0))) clk
  = (Open, set_last_failure_time self (Some (now clk0)), tick clk).
Proof.
  intros Hge Hwithin. unfold state, time_time. simpl. rewrite Hge.
  pose proof (now_positive clk0).
  destruct (Z.eqb_spec (now clk0) 0); [lia |]. simpl.
  destruct (Z.ltb_spec (reset_timeout self) (now clk - now clk0)); [lia | done].
Qed.

(** Half-open is read once per window: the reading that reports it restarts
    the timeout at the clock's next reading, and any later reading taken
    before that timeout has run out reports open and changes nothing. *)
Theorem half_open_once_per_window self clk clk2 :
  (state self clk).1.1 = HalfOpen ->
  now clk2 - now (tick clk) <= reset_timeout self ->
  let self' := (state self clk).1.2 in
  _last_failure_time self' = Some (now (tick clk))
  /\ state self' clk2 = (Open, self', tick clk2).
Proof.
  intros Hst Hwithin self'. subst self'.
  destruct (state_half_open_inv self clk Hst) as [Hge ->]. simpl.
  split; [done |]. by apply state_open_after_refresh.
Qed.

Lemma half_open_once_per_window_witness :
  let cb := (open M1 (init [HandlerError] 1 15) probe_clock).1 in
  let cb' := (state cb (tick probe_clock)).1.2 in
  _last_failure_time cb' = Some 102
  /\ state cb' (tick (tick (tick probe_clock)))
     = (Open, cb', tick (tick (tick (tick probe_clock)))).
Proof.
  intros cb cb'.
  refine (half_open_once_per_window cb (tick probe_clock)
            (tick (tick (tick probe_clock))) _ _).
  - reflexivity.
  - vm_compute. discriminate.
Defined.

(** Reading [state] never changes the configuration, the failure count or
    the stored message; a reading other than half-open changes nothing at
    all, and a closed reading does not even read the clock. *)
Theorem state_only_refreshes_timestamp self clk :
  let h := (state self clk).1.1 in
  let self' := (state self clk).1.2 in
  exceptions self' = exceptions self
  /\ failure_threshold self' = failure_threshold self
  /\ reset_timeout self' = reset_timeout self
  /\ _failure_count self' = _failure_count self
  /\ _raw_message self' = _raw_message self
  /\ (h <> HalfOpen -> self' = self)
  /\ (h = Closed -> (state self clk).2 = clk).
Proof.
  destruct (state_cases self clk) as [-> | [-> | [-> | [_ ->]]]];
    simpl; repeat split; done.
Qed.

(** A run of [open] calls: the count grows by their number, the stored
    message is the last one, the failure time is the reading the last call
    took, and each call took one reading. *)
Theorem opens_record_last messages m self clk :
  let after := run (map CallOpen (messages ++ [m])) self clk in
  _failure_count after.1 = _failure_count self + Z.of_nat (S (length messages))
  /\ _raw_message after.1 = Some m
  /\ _last_failure_time after.1
     = Some (Z.pos (readings clk (ticks clk + length messages)%nat))
  /\ after.2 = {| readings := readings clk;
                  ticks := (ticks clk + S (length messages))%nat |}.
Proof.
  revert self clk. induction messages as [| m0 rest IH]; intros self clk.
  - simpl. unfold now. rewrite Nat.add_0_r, Nat.add_1_r.
    repeat split; (done || lia).
  - cbn [app map run step]. unfold open, time_time.
    match goal with
    | |- context [run _ ?s ?c] =>
        destruct (IH s c) as (Hc & Hm & Ht & Hk)
    end.
    cbn zeta in *. rewrite Hc, Hm, Ht, Hk. simpl.
    rewrite <- !Nat.add_succ_comm.
    repeat split; (done || lia).
Qed.

(** No sequence of calls changes the configuration of a breaker. *)
Theorem run_keeps_configuration calls self clk :
  exceptions (run calls self clk).1 = exceptions self
  /\ failure_threshold (run calls self clk).1 = failure_threshold self
  /\ reset_timeout (run calls self clk).1 = reset_timeout self.
Proof.
  revert self clk. induction calls as [| c rest IH]; intros self clk.
  - done.
  - cbn [run]. pose proof (step_config c self clk) as (HT & Hto & He).
    destruct (step c self clk) as [self' clk']. simpl in *.
    destruct (IH self' clk') as (-> & -> & ->). done.
Qed.

(** On every breaker built by [__init__] and used through its operations the
    failure count is never negative, it is 0 exactly when no failure time is
    recorded, and a recorded failure time is a clock reading. *)
Theorem reachable_count_and_time self :
  reachable self ->
  0 <= _failure_count self
  /\ (_failure_count self = 0 <-> _last_failure_time self = None)
  /\ (forall last, _last_failure_time self = Some last -> 0 < last).
Proof.
  intros Hr. destruct (reachable_consistent self Hr) as [Hnn Hz Hpos _]. done.
Qed.

Lemma reachable_count_and_time_witness :
  0 <= _failure_count tripped_breaker
  /\ (_failure_count tripped_breaker = 0
      <-> _last_failure_time tripped_breaker = None)
  /\ (forall last, _last_failure_time tripped_breaker = Some last -> 0 < last).
Proof.
  exact (reachable_count_and_time tripped_breaker
           (reachable_step (CallOpen M1) _ _ (reachable_init _ _ _))).
Defined.

End CircuitBreakerBehaviour.

(** * Further properties of Route *)

Section RouteBehaviour.

Import Route.

(** What [__init__] returns when no assertion fails. *)
Lemma init_result provider_ handler_ name_ translator_ error_handler_ enabled_
    breaker_ r :
  init provider_ handler_ name_ translator_ error_handler_ enabled_ breaker_
  = Return r ->
  r = {| name := name_;
         enabled := enabled_;
         circuit_breaker := match breaker_ with
                            | Some cb => RealBreaker cb
                            | None => StubBreaker
                            end;
         provider := provider_;
         message_translator := translator_;
         _error_handler := error_handler_;
         handler := getattr_handle handler_;
         _handler_instance := match handler_ with
                              | HandlerCallable _ => None
                              | HandlerObject _ _ => Some handler_
                              end |}.
Proof.
  unfold init.
  destruct (negb (is_AbstractProvider provider_)); [done |].
  destruct (match translator_ with
            | Some tr => negb (is_AbstractMessageTranslator tr)
            | None => false
            end); [done |].
  destruct (match error_handler_ with
            | Some eh => attr_truthy eh && negb (callable eh)
            | None => false
            end); [done |].
  destruct handler_ as [f | [[v | g] |] stop_]; simpl;
    try destruct (truthy v); simpl; try done; by intros [= <-].
Qed.

(** The three ways [deliver] ends, whatever the fuel: on a disabled route,
    after a handler run that returned, after a handler run that raised. *)
Lemma deliver_cases fuel raw w :
  (enabled (self w) = false
   /\ deliver (S fuel) raw w = Some (Return (VBool false), w))
  \/ (enabled (self w) = true
      /\ exists r, (run_handler raw w).1 = Return r
         /\ deliver (S fuel) raw w
            = Some (Return r, breaker_close (run_handler raw w).2))
  \/ (enabled (self w) = true
      /\ exists e e', (run_handler raw w).1 = Raise e
         /\ deliver (S fuel) raw w = Some (Raise e', (run_handler raw w).2)).
Proof.
  cbn [deliver]. destruct (enabled (self w)); [| by left].
  right. cbn [negb].
  destruct (run_handler raw w) as [[r | e] w1]; cbn [fst snd].
  - left. split; [done |]. by exists r.
  - right. split; [done |]. rewrite hasattr_circuit. cbn [negb].
    destruct (isinstance e [DeleteMessage; CancelledError]); [by exists e, e |].
    destruct (isinstance e (breaker_exceptions (circuit_breaker (self w1))));
      eexists e, _; done.
Qed.

(** [close] on the route's breaker touches nothing else. *)
Lemma breaker_close_frame w :
  clock (breaker_close w) = clock w
  /\ trace (breaker_close w) = trace w
  /\ enabled (self (breaker_close w)) = enabled (self w)
  /\ provider (self (breaker_close w)) = provider (self w)
  /\ circuit_breaker (self (breaker_close w))
     = match circuit_breaker (self w) with
       | RealBreaker cb => RealBreaker (CircuitBreaker.close cb)
       | StubBreaker => StubBreaker
       end.
Proof.
  unfold breaker_close.
  destruct (circuit_breaker (self w)) as [cb |] eqn:Hcb; simpl; by rewrite ?Hcb.
Qed.

(** With the stub breaker [deliver] on an enabled route is one run of the
    handler. *)
Lemma stub_deliver fuel raw w :
  circuit_breaker (self w) = StubBreaker ->
  enabled (self w) = true ->
  deliver (S fuel) raw w = Some (run_handler raw w).
Proof.
  intros Hstub He.
  pose proof (run_handler_frame raw w) as (Hs & _ & _).
  cbn [deliver]. rewrite He. cbn [negb].
  destruct (run_handler raw w) as [[r | e] w1]; cbn [fst snd] in *.
  - unfold breaker_close. by rewrite Hs, Hstub.
  - rewrite Hs, Hstub. cbn [breaker_exceptions].
    by destruct (isinstance e [DeleteMessage; CancelledError]).
Qed.

(** A route constructed without a circuit breaker holds the stub: while
    enabled, [deliver] is exactly one run of the handler (its result or its
    error, nothing recorded, nothing retried), and [fetch_messages] always
    asks the provider. *)
Theorem route_without_breaker_passes_through provider_ handler_ name_
    translator_ error_handler_ r clk tr fuel raw :
  init provider_ handler_ name_ translator_ error_handler_ true None
  = Return r ->
  let w := {| self := r; clock := clk; trace := tr |} in
  circuit_breaker r = StubBreaker
  /\ deliver (S fuel) raw w = Some (run_handler raw w)
  /\ fetch_messages w
     = (provider_fetch_messages provider_ tr, record EvFetch w).
Proof.
  intros Hinit w. apply init_result in Hinit. subst r w.
  split; [done |]. split; [by apply stub_deliver | done].
Qed.

Lemma route_without_breaker_passes_through_witness :
  let r := make_route (AttrCallable failing_handler) None StubBreaker in
  circuit_breaker r = StubBreaker
  /\ deliver 1 M1 (start r)
     = Some (Raise handler_error, record (EvHandle true M1 ∅) (start r))
  /\ fetch_messages (start r)
     = (Return [VStr "M2"; VStr "M3"], record EvFetch (start r)).
Proof.
  exact (route_without_breaker_passes_through example_provider
           (HandlerCallable failing_handler) "default" None None
           (make_route (AttrCallable failing_handler) None StubBreaker)
           example_clock [] 0 M1 eq_refl).
Defined.

(** Whatever the route, the message and the fuel, [deliver] returns; it
    invokes the handler at most once, never reads the clock, never changes
    [enabled], and leaves the breaker as it was or closed: it never records
    a failure. *)
Theorem deliver_effects fuel raw w :
  exists res w',
    deliver (S fuel) raw w = Some (res, w')
    /\ (handler_calls (trace w') <= S (handler_calls (trace w)))%nat
    /\ clock w' = clock w
    /\ enabled (self w') = enabled (self w)
    /\ (circuit_breaker (self w') = circuit_breaker (self w)
        \/ exists cb, circuit_breaker (self w) = RealBreaker cb
             /\ circuit_breaker (self w') = RealBreaker (CircuitBreaker.close cb)).
Proof.
  pose proof (run_handler_frame raw w) as (Hs & Hc & Hn).
  destruct (deliver_cases fuel raw w)
    as [[_ ->] | [[_ (r & _ & ->)] | [_ (e & e' & _ & ->)]]].
  - eexists _, _. split; [done |]. repeat split; auto with lia.
  - pose proof (breaker_close_frame (run_handler raw w).2)
      as (Hclk & Htr & Hen & _ & Hcb).
    eexists _, _. split; [done |].
    rewrite Hclk, Htr, Hen, Hcb, Hs. repeat split; try done.
    destruct (circuit_breaker (self w)) as [cb |]; [right; by exists cb | by left].
  - eexists _, _. split; [done |]. rewrite Hs. repeat split; auto.
Qed.

(** [stop] flips [enabled] and records its calls; the breaker and the clock
    are not its business. *)
Lemma stop_frame w :
  enabled (self (stop w)) = false
  /\ circuit_breaker (self (stop w)) = circuit_breaker (self w)
  /\ clock (stop w) = clock w
  /\ (trace (stop w) = EvProviderStop :: trace w
      \/ trace (stop w) = EvHandlerStop :: EvProviderStop :: trace w).
Proof.
  unfold stop. simpl.
  destruct (_handler_instance (self w)) as [[f | handle [|]] |]; simpl; auto.
Qed.

(** After [fetch_messages] the route is as after the state reading it
    starts with; only the trace may have gained the provider call. *)
Lemma fetch_messages_self w :
  self (fetch_messages w).2 = self (breaker_state w).2
  /\ clock (fetch_messages w).2 = clock (breaker_state w).2.
Proof.
  unfold fetch_messages.
  destruct (breaker_state w) as [[| |] w1]; cbn [fst snd]; try done.
  by destruct (breaker_raw_message (circuit_breaker (self w1))).
Qed.

(** One call on a route leaves its breaker as it was, closes it, or reads
    its state. *)
Lemma route_step_breaker c w :
  match circuit_breaker (self w) with
  | StubBreaker => circuit_breaker (self (route_step c w)) = StubBreaker
  | RealBreaker cb =>
      circuit_breaker (self (route_step c w)) = RealBreaker cb
      \/ circuit_breaker (self (route_step c w))
         = RealBreaker (CircuitBreaker.close cb)
      \/ circuit_breaker (self (route_step c w))
         = RealBreaker (CircuitBreaker.state cb (clock w)).1.2
  end.
Proof.
  destruct c as [fuel raw | |]; cbn [route_step].
  - pose proof (run_handler_frame raw w) as (Hs & _ & _).
    destruct (deliver_cases fuel raw w)
      as [[_ ->] | [[_ (r & _ & ->)] | [_ (e & e' & _ & ->)]]].
    + destruct (circuit_breaker (self w)); auto.
    + pose proof (breaker_close_frame (run_handler raw w).2) as (_ & _ & _ & _ & ->).
      rewrite Hs. destruct (circuit_breaker (self w)); auto.
    + rewrite Hs. destruct (circuit_breaker (self w)); auto.
  - destruct (fetch_messages_self w) as [-> _].
    pose proof (breaker_state_frame w) as (_ & _ & Hb). cbn zeta in Hb.
    destruct (circuit_breaker (self w)) as [cb |];
      destruct (circuit_breaker (self (breaker_state w).2)) as [cb1 |];
      try done.
    destruct Hb as [_ ->]. auto.
  - destruct (stop_frame w) as (_ & -> & _).
    destruct (circuit_breaker (self w)); auto.
Qed.

Lemma route_step_keeps_reachable c w :
  breaker_reachable (circuit_breaker (self w)) ->
  breaker_reachable (circuit_breaker (self (route_step c w))).
Proof.
  intros Hr. pose proof (route_step_breaker c w) as Hb.
  destruct (circuit_breaker (self w)) as [cb |]; [| by rewrite Hb].
  destruct Hb as [-> | [-> | ->]]; simpl in *.
  - done.
  - exact (CircuitBreaker.reachable_step CircuitBreaker.CallClose cb (clock w) Hr).
  - pose proof (CircuitBreaker.reachable_step CircuitBreaker.CallState cb (clock w) Hr)
      as Hs.
    simpl in Hs. by destruct (CircuitBreaker.state cb (clock w)) as [[st cb'] clk'].
Qed.

(** Whatever the scheduler asks of a route ([deliver], [fetch_messages],
    [stop], in any order), its breaker stays one that [__init__] and the
    breaker's own operations can produce. *)
Theorem route_run_keeps_breaker_reachable calls w :
  breaker_reachable (circuit_breaker (self w)) ->
  breaker_reachable (circuit_breaker (self (route_run calls w))).
Proof.
  revert w. induction calls as [| c rest IH]; intros w Hr; [done |].
  cbn [route_run]. by apply IH, route_step_keeps_reachable.
Qed.

Lemma route_run_keeps_breaker_reachable_witness :
  breaker_reachable
    (circuit_breaker
       (self (route_run [CallFetch; CallDeliver 0 M1; CallStop; CallFetch]
                        probe_world))).
Proof.
  apply route_run_keeps_breaker_reachable.
  exact (CircuitBreaker.reachable_step (CircuitBreaker.CallOpen M1) _ _
           (CircuitBreaker.reachable_init _ _ _)).
Defined.

Lemma route_step_keeps_count_zero c w cb :
  circuit_breaker (self w) = RealBreaker cb ->
  CircuitBreaker._failure_count cb = 0 ->
  exists cb',
    circuit_breaker (self (route_step c w)) = RealBreaker cb'
    /\ CircuitBreaker._failure_count cb' = 0
    /\ CircuitBreaker.failure_threshold cb' = CircuitBreaker.failure_threshold cb.
Proof.
  intros Hcb Hzero. pose proof (route_step_breaker c w) as Hb.
  rewrite Hcb in Hb. destruct Hb as [-> | [-> | ->]].
  - by exists cb.
  - by eexists.
  - eexists. split; [done |].
    destruct (state_cases cb (clock w)) as [-> | [-> | [-> | [_ ->]]]]; done.
Qed.

(** Through the route's own operations the breaker never counts a failure:
    started at count 0, it is at count 0 after any sequence of [deliver],
    [fetch_messages] and [stop] calls, whatever the handler raised; with a
    threshold of at least 1 it therefore still reads closed. *)
Theorem route_never_trips calls w cb :
  circuit_breaker (self w) = RealBreaker cb ->
  CircuitBreaker._failure_count cb = 0 ->
  exists cb',
    circuit_breaker (self (route_run calls w)) = RealBreaker cb'
    /\ CircuitBreaker._failure_count cb' = 0
    /\ CircuitBreaker.failure_threshold cb' = CircuitBreaker.failure_threshold cb
    /\ (1 <= CircuitBreaker.failure_threshold cb ->
        (breaker_state (route_run calls w)).1 = Closed).
Proof.
  revert w cb. induction calls as [| c rest IH]; intros w cb Hcb Hzero.
  - exists cb. repeat split; try done.
    intros HT. cbn [route_run]. unfold breaker_state, CircuitBreaker.state.
    rewrite Hcb, Hzero.
    by destruct (Z.ltb_spec 0 (CircuitBreaker.failure_threshold cb)); [| lia].
  - cbn [route_run].
    destruct (route_step_keeps_count_zero c w cb Hcb Hzero) as (cb1 & Hcb1 & Hz1 & HT1).
    destruct (IH _ cb1 Hcb1 Hz1) as (cb' & Hcb' & Hz' & HT' & Hclosed).
    exists cb'. rewrite <- HT1. repeat split; done.
Qed.

Lemma route_never_trips_witness :
  (breaker_state
     (route_run [CallDeliver 3 M1; CallDeliver 0 M1; CallFetch; CallDeliver 1 M1]
                (start scenario_route))).1 = Closed.
Proof.
  destruct (route_never_trips
              [CallDeliver 3 M1; CallDeliver 0 M1; CallFetch; CallDeliver 1 M1]
              (start scenario_route) scenario_breaker eq_refl eq_refl)
    as (cb' & _ & _ & _ & Hclosed).
  apply Hclosed. vm_compute. discriminate.
Defined.

(** [stop] disables the route for good: a later [deliver] returns False
    without touching the translator, the handler, the breaker or the clock.
    Every call of [stop] asks the provider to stop again. *)
Theorem stop_disables fuel raw w :
  enabled (self (stop w)) = false
  /\ deliver (S fuel) raw (stop w) = Some (Return (VBool false), stop w)
  /\ circuit_breaker (self (stop w)) = circuit_breaker (self w)
  /\ clock (stop w) = clock w
  /\ handler_calls (trace (stop w)) = handler_calls (trace w)
  /\ provider_stops (trace (stop w)) = S (provider_stops (trace w))
  /\ provider_stops (trace (stop (stop w))) = S (S (provider_stops (trace w))).
Proof.
  assert (forall w0, handler_calls (trace (stop w0)) = handler_calls (trace w0)
                     /\ provider_stops (trace (stop w0))
                        = S (provider_stops (trace w0))) as Hcount.
  { intros w0. destruct (stop_frame w0) as (_ & _ & _ & [-> | ->]); done. }
  destruct (stop_frame w) as (He & Hcb & Hclk & _).
  destruct (Hcount w) as [Hh Hp]. destruct (Hcount (stop w)) as [_ Hp2].
  repeat split; try done.
  - by apply deliver_disabled.
  - by rewrite Hp2, Hp.
Qed.

(** On a constructed route [stop] asks the provider to stop and then, only
    when the handler was given as a non-callable object that has a [stop]
    attribute, that object; a callable handler is never asked. *)
Theorem stop_calls_handler_hook provider_ handler_ name_ translator_
    error_handler_ enabled_ breaker_ r clk tr :
  init provider_ handler_ name_ translator_ error_handler_ enabled_ breaker_
  = Return r ->
  trace (stop {| self := r; clock := clk; trace := tr |})
  = if has_stop_hook handler_
    then EvHandlerStop :: EvProviderStop :: tr
    else EvProviderStop :: tr.
Proof.
  intros Hinit. apply init_result in Hinit. subst r.
  by destruct handler_ as [f | handle [|]].
Qed.

Lemma stop_calls_handler_hook_witness :
  let r := {| name := "default";
              enabled := true;
              circuit_breaker := StubBreaker;
              provider := example_provider;
              message_translator := None;
              _error_handler := None;
              handler := AttrCallable echo_handler;
              _handler_instance := Some stoppable_handler |} in
  trace (stop {| self := r; clock := example_clock; trace := [EvFetch] |})
  = [EvHandlerStop; EvProviderStop; EvFetch].
Proof.
  intros r.
  exact (stop_calls_handler_hook example_provider stoppable_handler "default"
           None None true None r example_clock [EvFetch] eq_refl).
Defined.

(** With a translator bound that returns non-empty content, the translator
    is called once with the raw message, and the handler is invoked with the
    translator's content and the translator's metadata (none when the
    translator gave no metadata). *)
Theorem translated_message_reaches_handler raw w tr t c :
  message_translator (self w) = Some tr ->
  translate tr (trace w) raw = Return t ->
  translated_content t = Some c ->
  truthy c = true ->
  let md := default ∅ (translated_metadata t) in
  let w1 := record (EvTranslate raw) w in
  apply_message_translator raw w = (Return {| content := c; metadata := md |}, w1)
  /\ run_handler raw w
     = match handler (self w) with
       | AttrCallable f =>
           (invoke f (trace w1) c md,
            record (EvHandle (negb (iscoroutinefunction f)) c md) w1)
       | AttrData _ => (Raise not_callable_error, w1)
       end.
Proof.
  intros Htr Ht Hc Htruthy md w1.
  assert (apply_message_translator raw w
          = (Return {| content := c; metadata := md |}, w1)) as Happly.
  { unfold apply_message_translator. rewrite Htr, Ht, Hc, Htruthy.
    cbn [negb]. subst md. by rewrite (right_id_L ∅ (∪)). }
  split; [done |].
  unfold run_handler. rewrite Happly. subst w1. simpl.
  by destruct (handler (self w)).
Qed.

Lemma translated_message_reaches_handler_witness :
  let w := start (make_route (AttrCallable echo_handler)
                             (Some tagging_translator) StubBreaker) in
  let md : gmap string value := {[ "source" := VStr "queue" ]} in
  let w1 := record (EvTranslate M1) w in
  apply_message_translator M1 w
  = (Return {| content := VList [M1]; metadata := md |}, w1)
  /\ run_handler M1 w
     = (Return (VList [M1]), record (EvHandle false (VList [M1]) md) w1).
Proof.
  intros w md w1.
  exact (translated_message_reaches_handler M1 w tagging_translator
           {| translated_content := Some (VList [M1]);
              translated_metadata := Some md |}
           (VList [M1]) eq_refl eq_refl eq_refl eq_refl).
Defined.

(** A half-open [fetch_messages] uses up the probe: without asking the
    provider it takes two clock readings and sets the breaker's last failure
    time to the second, which restarts the timeout; the next
    [fetch_messages], if that timeout has not run out at its own reading,
    returns the empty list, again without asking the provider, and leaves
    the breaker as the first one left it. *)
Theorem fetch_probe_once w :
  (breaker_state w).1 = HalfOpen ->
  let w1 := (fetch_messages w).2 in
  trace w1 = trace w
  /\ clock w1 = tick (tick (clock w))
  /\ exists cb cb1,
       circuit_breaker (self w) = RealBreaker cb
       /\ circuit_breaker (self w1) = RealBreaker cb1
       /\ CircuitBreaker._last_failure_time cb1 = Some (now (tick (clock w)))
       /\ CircuitBreaker._failure_count cb1 = CircuitBreaker._failure_count cb
       /\ CircuitBreaker._raw_message cb1 = CircuitBreaker._raw_message cb
       /\ CircuitBreaker.reset_timeout cb1 = CircuitBreaker.reset_timeout cb
       /\ (now (tick (tick (clock w))) - now (tick (clock w))
              <= CircuitBreaker.reset_timeout cb ->
           (fetch_messages w1).1 = Return []
           /\ trace (fetch_messages w1).2 = trace w
           /\ circuit_breaker (self (fetch_messages w1).2) = RealBreaker cb1).
Proof.
  intros Hst w1.
  assert (w1 = (breaker_state w).2) as Hw1.
  { subst w1. unfold fetch_messages.
    destruct (breaker_state w) as [st w0]. simpl in Hst. subst st.
    cbn [fst snd]. by destruct (breaker_raw_message (circuit_breaker (self w0))). }
  clearbody w1. subst w1. revert Hst. unfold breaker_state.
  destruct (circuit_breaker (self w)) as [cb |] eqn:Hcb; [| done].
  intros Hst.
  destruct (state_half_open_inv cb (clock w)) as [Hge Heq].
  { by destruct (CircuitBreaker.state cb (clock w)) as [[st cb'] clk']. }
  rewrite Heq. cbn [fst snd self clock trace circuit_breaker set_circuit_breaker].
  split; [done |]. split; [done |].
  exists cb, (CircuitBreaker.set_last_failure_time cb (Some (now (tick (clock w))))).
  do 6 (split; [done |]).
  intros Hwithin. unfold fetch_messages, breaker_state.
  cbn [self clock trace circuit_breaker set_circuit_breaker].
  rewrite (state_open_after_refresh cb (tick (clock w)) (tick (tick (clock w)))
             Hge Hwithin).
  done.
Qed.

Lemma fetch_probe_once_witness :
  (fetch_messages probe_world).1 = Return [M1]
  /\ clock (fetch_messages probe_world).2 = tick (tick (clock probe_world))
  /\ circuit_breaker (self (fetch_messages probe_world).2)
     = RealBreaker
         {| CircuitBreaker.exceptions := [HandlerError];
            CircuitBreaker.failure_threshold := 1;
            CircuitBreaker.reset_timeout := 15;
            CircuitBreaker._failure_count := 1;
            CircuitBreaker._last_failure_time := Some 102;
            CircuitBreaker._raw_message := Some M1;
            CircuitBreaker._breaker_message := None |}
  /\ (fetch_messages (fetch_messages probe_world).2).1 = Return []
  /\ trace (fetch_messages (fetch_messages probe_world).2).2 = trace probe_world.
Proof.
  split; [reflexivity |].
  destruct (fetch_probe_once probe_world eq_refl)
    as (_ & Hclk & cb & cb1 & Hcb & Hcb1 & _ & _ & _ & _ & Hnext).
  split; [exact Hclk |]. split; [reflexivity |].
  injection Hcb as <-.
  destruct Hnext as (Hres & Htr & _); [vm_compute; discriminate |].
  exact (conj Hres Htr).
Defined.

(** After a delivery whose handler returned, on a route whose breaker has a
    threshold of at least 1, the next [fetch_messages] asks the provider,
    whatever the breaker had recorded before. *)
Theorem successful_delivery_resumes_fetching fuel raw w cb r w1 :
  enabled (self w) = true ->
  circuit_breaker (self w) = RealBreaker cb ->
  1 <= CircuitBreaker.failure_threshold cb ->
  run_handler raw w = (Return r, w1) ->
  deliver (S fuel) raw w = Some (Return r, breaker_close w1)
  /\ (fetch_messages (breaker_close w1)).1
     = provider_fetch_messages (provider (self w)) (trace w1)
  /\ trace (fetch_messages (breaker_close w1)).2 = EvFetch :: trace w1.
Proof.
  intros He Hcb HT Hrun.
  pose proof (run_handler_frame raw w) as (Hs & _ & _).
  rewrite Hrun in Hs. cbn [fst snd] in Hs.
  split.
  { cbn [deliver]. by rewrite He, Hrun. }
  unfold fetch_messages, breaker_state, breaker_close.
  rewrite Hs, Hcb.
  cbn [self clock trace circuit_breaker set_circuit_breaker].
  unfold CircuitBreaker.state.
  cbn [CircuitBreaker._failure_count CircuitBreaker.failure_threshold
       CircuitBreaker.close].
  destruct (Z.ltb_spec 0 (CircuitBreaker.failure_threshold cb)); [| lia].
  done.
Qed.

Lemma successful_delivery_resumes_fetching_witness :
  let w1 := record (EvHandle false M1 ∅) (start recovering_route) in
  deliver 1 M1 (start recovering_route) = Some (Return M1, breaker_close w1)
  /\ (fetch_messages (breaker_close w1)).1 = Return [VStr "M2"; VStr "M3"]
  /\ trace (fetch_messages (breaker_close w1)).2 = EvFetch :: trace w1.
Proof.
  intros w1.
  refine (successful_delivery_resumes_fetching 0 M1 (start recovering_route)
            failed_breaker M1 w1 eq_refl eq_refl _ eq_refl).
  vm_compute. discriminate.
Defined.

(** Whatever the route, [fetch_messages] never invokes the handler, never
    changes [enabled], asks the provider at most once, and leaves the
    breaker's failure count, stored message and configuration as they were. *)
Theorem fetch_messages_effects w :
  let w' := (fetch_messages w).2 in
  handler_calls (trace w') = handler_calls (trace w)
  /\ enabled (self w') = enabled (self w)
  /\ (trace w' = trace w \/ trace w' = EvFetch :: trace w)
  /\ match circuit_breaker (self w), circuit_breaker (self w') with
     | RealBreaker cb, RealBreaker cb' =>
         CircuitBreaker._failure_count cb' = CircuitBreaker._failure_count cb
         /\ CircuitBreaker._raw_message cb' = CircuitBreaker._raw_message cb
         /\ CircuitBreaker.exceptions cb' = CircuitBreaker.exceptions cb
         /\ CircuitBreaker.failure_threshold cb' = CircuitBreaker.failure_threshold cb
         /\ CircuitBreaker.reset_timeout cb' = CircuitBreaker.reset_timeout cb
     | StubBreaker, StubBreaker => True
     | _, _ => False
     end.
Proof.
  intros w'. subst w'.
  assert (enabled (self (breaker_state w).2) = enabled (self w)) as Hen.
  { unfold breaker_state. destruct (circuit_breaker (self w)) as [cb |]; [| done].
    by destruct (CircuitBreaker.state cb (clock w)) as [[st cb'] clk']. }
  pose proof (breaker_state_frame w) as (Htr & _ & Hb). cbn zeta in Hb.
  destruct (fetch_messages_self w) as [Hself _].
  assert (trace (fetch_messages w).2 = trace (breaker_state w).2
          \/ trace (fetch_messages w).2 = EvFetch :: trace (breaker_state w).2)
    as Htrace.
  { unfold fetch_messages.
    destruct (breaker_state w) as [[| |] w1]; cbn [fst snd]; auto.
    destruct (breaker_raw_message (circuit_breaker (self w1))); auto. }
  rewrite Hself, Hen. rewrite Htr in Htrace.
  split; [by destruct Htrace as [-> | ->] |].
  split; [done |]. split; [done |].
  destruct (circuit_breaker (self w)) as [cb |];
    destruct (circuit_breaker (self (breaker_state w).2)) as [cb1 |]; try done.
  destruct Hb as [Hraw ->].
  destruct (state_cases cb (clock w)) as [-> | [-> | [-> | [_ ->]]]]; done.
Qed.

(** Every way [Route] construction fails is an AssertionError, and an
    invalid provider is reported before any other argument is looked at. *)
Theorem init_raises_assertion_error provider_ handler_ name_ translator_
    error_handler_ enabled_ breaker_ e :
  init provider_ handler_ name_ translator_ error_handler_ enabled_ breaker_
  = Raise e ->
  exn_class e = AssertionError
  /\ (is_AbstractProvider provider_ = false ->
      exn_message e = "invalid provider instance").
Proof.
  unfold init.
  destruct (is_AbstractProvider provider_); cbn [negb];
    [| by intros [= <-]].
  destruct (match translator_ with
            | Some tr => negb (is_AbstractMessageTranslator tr)
            | None => false
            end); [by intros [= <-] |].
  destruct (match error_handler_ with
            | Some eh => attr_truthy eh && negb (callable eh)
            | None => false
            end); [by intros [= <-] |].
  destruct handler_ as [f | [[v | g] |] stop_]; simpl;
    try destruct (truthy v); simpl; try done; by intros [= <-].
Qed.

Lemma init_raises_assertion_error_witness :
  init {| is_AbstractProvider := false;
          provider_fetch_messages := fun _ => Return [] |}
       (HandlerObject None false) "default" None None true None
  = Raise (assertion_error "invalid provider instance")
  /\ exn_class (assertion_error "invalid provider instance") = AssertionError
  /\ exn_message (assertion_error "invalid provider instance")
     = "invalid provider instance".
Proof.
  split; [reflexivity |].
  destruct (init_raises_assertion_error
              {| is_AbstractProvider := false;
                 provider_fetch_messages := fun _ => Return [] |}
              (HandlerObject None false) "default" None None true None
              (assertion_error "invalid provider instance") eq_refl)
    as [Hclass Hmsg].
  exact (conj Hclass (Hmsg eq_refl)).
Defined.

End RouteBehaviour.
